(** * git-mcp: the command dispatcher of [src/index.ts]

    The server receives a tool name and an argument object, builds one
    [git ...] command line by string concatenation, hands it to
    [child_process.exec] and relays the captured standard output.  This file
    embeds the sixteen handlers, [execGit] and the [CallToolRequestSchema]
    handler, and states the dispatcher's contract over them. *)

From stdpp Require Import gmap strings pretty.
From Stdlib Require Import ZArith Ascii.

Local Open Scope string_scope.

(** ** Argument values

    [args] is typed [any] in the source and arrives as JSON, so a field holds
    [null], a boolean, a number, a string or an array.  Numbers are the
    integer-valued ones that JavaScript prints in plain decimal (magnitude
    below 10^21); JSON objects as field values are left out.  A property read
    [args.k] is the map lookup [args !! k], where [None] is [undefined]. *)

#[local] Set Warnings "-register-all".

Inductive value : Type :=
  | VNull
  | VBool (b : bool)
  | VNum (n : Z)
  | VStr (s : string)
  | VArr (items : list value).

Abbreviation Args := (gmap string value).

(** [String(v)]; an array prints as [join(",")], where [null] items print as
    the empty string. *)
Fixpoint to_string (v : value) : string :=
  match v with
  | VNull => "null"
  | VBool true => "true"
  | VBool false => "false"
  | VNum n => pretty n
  | VStr s => s
  | VArr items =>
      String.concat ","
        (List.map (fun x => match x with VNull => EmptyString | _ => to_string x end) items)
  end.

(** The text a template literal [`${args.k}`] interpolates. *)
Definition template (o : option value) : string :=
  match o with
  | None => "undefined"
  | Some v => to_string v
  end.

(** JavaScript truthiness, as tested by [if (args.k)]. *)
Definition truthy (o : option value) : bool :=
  match o with
  | None => false
  | Some VNull => false
  | Some (VBool b) => b
  | Some (VNum n) => negb (n =? 0)%Z
  | Some (VStr s) => negb (String.eqb s EmptyString)
  | Some (VArr _) => true
  end.

(** [`${args.k || 'd'}`]. *)
Definition or_default (o : option value) (d : string) : string :=
  if truthy o then template o else d.

(** [args.k === 's'] for a string literal, as used by [switch (args.action)]. *)
Definition is_str (o : option value) (s : string) : bool :=
  match o with
  | Some (VStr s') => String.eqb s' s
  | _ => false
  end.

(** [args.k === false]. *)
Definition is_false (o : option value) : bool :=
  match o with
  | Some (VBool false) => true
  | _ => false
  end.

(** [args.k !== undefined]. *)
Definition is_defined (o : option value) : bool :=
  match o with
  | None => false
  | Some _ => true
  end.

(** The double-quote character and the template [`"${s}"`]. *)
Definition dq : string :=
  String (Ascii false true false false false true false false) EmptyString.

Definition quoted (s : string) : string := dq +:+ s +:+ dq.

(** The newline character. *)
Definition nl : string :=
  String (Ascii false true false true false false false false) EmptyString.

(** ** Errors raised while a call is handled *)

Inductive ErrorCode : Type := MethodNotFound | InternalError.

(** [McpError] carries the code and the message its constructor is given;
    the other two are the plain errors of the runtime and of [exec]. *)
Inductive exn : Type :=
  | McpError (code : ErrorCode) (msg : string)
  | TypeError (msg : string)
  | ExecError (msg : string).

(** [error.message] *)
Definition message (e : exn) : string :=
  match e with
  | McpError _ m => m
  | TypeError m => m
  | ExecError m => m
  end.

(** ** Command composition

    Each [*_command] is the part of its handler that builds [command], line
    for line; [command += s] is [command +:+ s]. *)

Definition init_command (args : Args) : string :=
  let command := "init" in
  let command :=
    if truthy (args !! "initialBranch")
    then command +:+ " --initial-branch=" +:+ quoted (template (args !! "initialBranch"))
    else command in
  let command := if truthy (args !! "bare") then command +:+ " --bare" else command in
  let command :=
    if truthy (args !! "path") then command +:+ " " +:+ quoted (template (args !! "path"))
    else command in
  command.

Definition clone_command (args : Args) : string :=
  let command := "clone " +:+ quoted (template (args !! "url")) in
  let command :=
    if truthy (args !! "path") then command +:+ " " +:+ quoted (template (args !! "path"))
    else command in
  let command :=
    if truthy (args !! "branch")
    then command +:+ " --branch " +:+ quoted (template (args !! "branch"))
    else command in
  let command :=
    if truthy (args !! "depth") then command +:+ " --depth " +:+ template (args !! "depth")
    else command in
  let command := if truthy (args !! "recursive") then command +:+ " --recursive" else command in
  command.

Definition status_command (args : Args) : string :=
  let command := "status" in
  let command := if truthy (args !! "short") then command +:+ " --short" else command in
  let command := if truthy (args !! "branch") then command +:+ " --branch" else command in
  let command := if truthy (args !! "porcelain") then command +:+ " --porcelain" else command in
  command.

(** [args.files && args.files.length > 0]: only arrays and strings have a
    [length]; on anything else the comparison [undefined > 0] is false. *)
Definition has_files (o : option value) : bool :=
  truthy o &&
  match o with
  | Some (VArr items) => bool_decide (0 < length items)
  | Some (VStr s) => bool_decide (0 < String.length s)
  | _ => false
  end.

(** [args.files.map(f => `"${f}"`).join(' ')]; a string has no [map]. *)
Definition files_joined (o : option value) : exn + string :=
  match o with
  | Some (VArr items) => inr (String.concat " " (List.map (fun f => quoted (to_string f)) items))
  | _ => inl (TypeError "args.files.map is not a function")
  end.

Definition add_command (args : Args) : exn + string :=
  let command := "add" in
  if truthy (args !! "all") then inr (command +:+ " --all")
  else if truthy (args !! "update") then inr (command +:+ " --update")
  else if has_files (args !! "files") then
    match files_joined (args !! "files") with
    | inr files => inr (command +:+ " " +:+ files)
    | inl e => inl e
    end
  else inr (command +:+ " .").

Definition commit_command (args : Args) : string :=
  let command := "commit" in
  let command := command +:+ " -m " +:+ quoted (template (args !! "message")) in
  let command := if truthy (args !! "all") then command +:+ " --all" else command in
  let command := if truthy (args !! "amend") then command +:+ " --amend" else command in
  let command :=
    if truthy (args !! "author")
    then command +:+ " --author=" +:+ quoted (template (args !! "author"))
    else command in
  command.

Definition push_command (args : Args) : string :=
  let command := "push" in
  let command := if truthy (args !! "force") then command +:+ " --force" else command in
  let command :=
    if truthy (args !! "setUpstream") then command +:+ " --set-upstream" else command in
  let command := if truthy (args !! "tags") then command +:+ " --tags" else command in
  let command := command +:+ " " +:+ or_default (args !! "remote") "origin" in
  let command :=
    if truthy (args !! "branch") then command +:+ " " +:+ template (args !! "branch")
    else command in
  command.

Definition pull_command (args : Args) : string :=
  let command := "pull" in
  let command := if truthy (args !! "rebase") then command +:+ " --rebase" else command in
  let command := if is_false (args !! "ff") then command +:+ " --no-ff" else command in
  let command := command +:+ " " +:+ or_default (args !! "remote") "origin" in
  let command :=
    if truthy (args !! "branch") then command +:+ " " +:+ template (args !! "branch")
    else command in
  command.

Definition branch_command (args : Args) : string :=
  let command := "branch" in
  if is_str (args !! "action") "create" then
    command +:+ " " +:+ quoted (template (args !! "name"))
  else if is_str (args !! "action") "delete" then
    command +:+ " -d " +:+ quoted (template (args !! "name"))
  else if is_str (args !! "action") "rename" then
    command +:+ " -m " +:+ quoted (template (args !! "name"))
            +:+ " " +:+ quoted (template (args !! "newName"))
  else
    let command := if truthy (args !! "all") then command +:+ " --all" else command in
    let command := if truthy (args !! "remote") then command +:+ " --remote" else command in
    command.

Definition checkout_command (args : Args) : string :=
  let command := "checkout" in
  let command := if truthy (args !! "create") then command +:+ " -b" else command in
  let command := if truthy (args !! "force") then command +:+ " --force" else command in
  let command := command +:+ " " +:+ quoted (template (args !! "branch")) in
  command.

Definition merge_command (args : Args) : string :=
  let command := "merge " +:+ quoted (template (args !! "branch")) in
  let command :=
    if truthy (args !! "message")
    then command +:+ " -m " +:+ quoted (template (args !! "message"))
    else command in
  let command := if truthy (args !! "noFf") then command +:+ " --no-ff" else command in
  let command := if truthy (args !! "squash") then command +:+ " --squash" else command in
  command.

Definition log_command (args : Args) : string :=
  let command := "log" in
  let command :=
    if truthy (args !! "limit") then command +:+ " -" +:+ template (args !! "limit")
    else command in
  let command := if truthy (args !! "oneline") then command +:+ " --oneline" else command in
  let command := if truthy (args !! "graph") then command +:+ " --graph" else command in
  let command :=
    if truthy (args !! "author")
    then command +:+ " --author=" +:+ quoted (template (args !! "author"))
    else command in
  let command :=
    if truthy (args !! "since")
    then command +:+ " --since=" +:+ quoted (template (args !! "since"))
    else command in
  let command :=
    if truthy (args !! "until")
    then command +:+ " --until=" +:+ quoted (template (args !! "until"))
    else command in
  command.

Definition diff_command (args : Args) : string :=
  let command := "diff" in
  let command := if truthy (args !! "cached") then command +:+ " --cached" else command in
  let command := if truthy (args !! "stat") then command +:+ " --stat" else command in
  let command := if truthy (args !! "nameOnly") then command +:+ " --name-only" else command in
  let command :=
    if truthy (args !! "commit") then command +:+ " " +:+ template (args !! "commit")
    else command in
  command.

(** [stash@{${args.index}}], appended when [args.index !== undefined]. *)
Definition stash_ref (args : Args) (command : string) : string :=
  if is_defined (args !! "index")
  then command +:+ " stash@{" +:+ template (args !! "index") +:+ "}"
  else command.

Definition stash_command (args : Args) : string :=
  let command := "stash" in
  if is_str (args !! "action") "save" then
    let command := command +:+ " push" in
    let command :=
      if truthy (args !! "message")
      then command +:+ " -m " +:+ quoted (template (args !! "message"))
      else command in
    let command :=
      if truthy (args !! "includeUntracked") then command +:+ " --include-untracked"
      else command in
    command
  else if is_str (args !! "action") "pop" then
    let command := command +:+ " pop" in
    stash_ref args command
  else if is_str (args !! "action") "apply" then
    let command := command +:+ " apply" in
    stash_ref args command
  else if is_str (args !! "action") "drop" then
    let command := command +:+ " drop" in
    stash_ref args command
  else if is_str (args !! "action") "clear" then
    command +:+ " clear"
  else
    command +:+ " list".

Definition remote_command (args : Args) : string :=
  let command := "remote" in
  if is_str (args !! "action") "add" then
    command +:+ " add " +:+ quoted (template (args !! "name"))
            +:+ " " +:+ quoted (template (args !! "url"))
  else if is_str (args !! "action") "remove" then
    command +:+ " remove " +:+ quoted (template (args !! "name"))
  else if is_str (args !! "action") "set-url" then
    command +:+ " set-url " +:+ quoted (template (args !! "name"))
            +:+ " " +:+ quoted (template (args !! "url"))
  else if is_str (args !! "action") "show" then
    command +:+ " show " +:+ or_default (args !! "name") EmptyString
  else
    let command := if truthy (args !! "verbose") then command +:+ " -v" else command in
    command.

Definition tag_command (args : Args) : string :=
  let command := "tag" in
  if is_str (args !! "action") "create" then
    let command :=
      if truthy (args !! "annotated") && truthy (args !! "message")
      then command +:+ " -a " +:+ quoted (template (args !! "name"))
                   +:+ " -m " +:+ quoted (template (args !! "message"))
      else command +:+ " " +:+ quoted (template (args !! "name")) in
    let command := if truthy (args !! "force") then command +:+ " -f" else command in
    command
  else if is_str (args !! "action") "delete" then
    command +:+ " -d " +:+ quoted (template (args !! "name"))
  else
    command.

Definition reset_command (args : Args) : string :=
  let command :=
    "reset --" +:+ template (args !! "mode") +:+ " " +:+ or_default (args !! "commit") "HEAD" in
  command.

(** ** Running the command

    [child_process.exec] is the environment: [exec_call] records what it was
    called with, [Outcome] what it reports.  A process that ran to an exit
    status is [Exited]; every other way [exec] fails (the shell cannot be
    started, the working directory is unusable, the output buffer overflows)
    is [Failed] with the message of the error it raises. *)

Record exec_call : Type := ExecCall { ec_command : string; ec_cwd : option value }.

Inductive Outcome : Type :=
  | Exited (code : Z) (stdout stderr : string)
  | Failed (msg : string).

(** A computation may throw, and leaves a log of the [exec] calls it made. *)
Definition M (A : Type) : Type := list exec_call → (exn + A) * list exec_call.

Definition ret {A} (a : A) : M A := λ log, (inr a, log).

Definition throw {A} (e : exn) : M A := λ log, (inl e, log).

Definition bind {A B} (m : M A) (k : A → M B) : M B :=
  λ log,
    match m log with
    | (inr a, log') => k a log'
    | (inl e, log') => (inl e, log')
    end.

Definition try_catch {A} (m : M A) (handler : exn → M A) : M A :=
  λ log,
    match m log with
    | (inr a, log') => (inr a, log')
    | (inl e, log') => handler e log'
    end.

Definition lift {A} (r : exn + A) : M A :=
  match r with
  | inr a => ret a
  | inl e => throw e
  end.

Notation "'let*' x := m 'in' k" := (bind m (λ x, k))
  (at level 10, x pattern, m at level 100, k at level 200).

(** The result of a successful call, [{content: [{type: 'text', text}]}]. *)
Record ToolResult : Type := Text { text : string }.

(** [stdout || 'msg'] *)
Definition or_text (stdout msg : string) : string :=
  if String.eqb stdout EmptyString then msg else stdout.

Inductive tool : Type :=
  | git_init | git_clone | git_status | git_add | git_commit | git_push
  | git_pull | git_branch | git_checkout | git_merge | git_log | git_diff
  | git_stash | git_remote | git_tag | git_reset.

Definition tool_name (t : tool) : string :=
  match t with
  | git_init => "git_init" | git_clone => "git_clone" | git_status => "git_status"
  | git_add => "git_add" | git_commit => "git_commit" | git_push => "git_push"
  | git_pull => "git_pull" | git_branch => "git_branch" | git_checkout => "git_checkout"
  | git_merge => "git_merge" | git_log => "git_log" | git_diff => "git_diff"
  | git_stash => "git_stash" | git_remote => "git_remote" | git_tag => "git_tag"
  | git_reset => "git_reset"
  end.

Definition all_tools : list tool :=
  [git_init; git_clone; git_status; git_add; git_commit; git_push; git_pull; git_branch;
   git_checkout; git_merge; git_log; git_diff; git_stash; git_remote; git_tag; git_reset].

(** The [case] labels of [switch (name)], tried in order. *)
Definition tool_of_name (name : string) : option tool :=
  List.find (λ t, String.eqb name (tool_name t)) all_tools.

(** The property each handler reads first; with no argument object at all
    that read raises the [TypeError] below. *)
Definition first_read (t : tool) : string :=
  match t with
  | git_init => "initialBranch" | git_clone => "url" | git_status => "short"
  | git_add => "all" | git_commit => "message" | git_push => "force"
  | git_pull => "rebase" | git_branch => "action" | git_checkout => "create"
  | git_merge => "branch" | git_log => "limit" | git_diff => "cached"
  | git_stash => "action" | git_remote => "action" | git_tag => "action"
  | git_reset => "mode"
  end.

Definition undefined_read (k : string) : exn :=
  TypeError ("Cannot read properties of undefined (reading '" +:+ k +:+ "')").

Section Dispatcher.

(** What [exec] answers to a call. *)
Variable run : exec_call → Outcome.

(** [promisify(exec)(cmd, options)]: resolves with the captured output on
    exit status zero and rejects otherwise. *)
Definition execAsync (cmd : string) (cwd : option value) : M (string * string) :=
  λ log,
    let call := ExecCall cmd cwd in
    (match run call with
     | Exited code stdout stderr =>
         if (code =? 0)%Z then inr (stdout, stderr)
         else inl (ExecError ("Command failed: " +:+ cmd +:+ nl +:+ stderr))
     | Failed msg => inl (ExecError msg)
     end, (log ++ [call])%list).

Definition execGit (command : string) (cwd : option value) : M (string * string) :=
  let options := if truthy cwd then cwd else None in
  execAsync ("git " +:+ command) options.

Definition handleInit (args : Args) : M ToolResult :=
  let command := init_command args in
  let* (stdout, _) := execGit command None in
  ret (Text (or_text stdout "Git repository initialized successfully")).

Definition handleClone (args : Args) : M ToolResult :=
  let command := clone_command args in
  let* (stdout, _) := execGit command None in
  ret (Text (or_text stdout "Repository cloned successfully")).

Definition handleStatus (args : Args) : M ToolResult :=
  let command := status_command args in
  let* (stdout, _) := execGit command (args !! "path") in
  ret (Text stdout).

Definition handleAdd (args : Args) : M ToolResult :=
  let* command := lift (add_command args) in
  let* (stdout, _) := execGit command (args !! "path") in
  ret (Text (or_text stdout "Files added to staging area")).

Definition handleCommit (args : Args) : M ToolResult :=
  let command := commit_command args in
  let* (stdout, _) := execGit command (args !! "path") in
  ret (Text stdout).

Definition handlePush (args : Args) : M ToolResult :=
  let command := push_command args in
  let* (stdout, _) := execGit command (args !! "path") in
  ret (Text (or_text stdout "Push completed successfully")).

Definition handlePull (args : Args) : M ToolResult :=
  let command := pull_command args in
  let* (stdout, _) := execGit command (args !! "path") in
  ret (Text stdout).

Definition handleBranch (args : Args) : M ToolResult :=
  let command := branch_command args in
  let* (stdout, _) := execGit command (args !! "path") in
  ret (Text (or_text stdout "Branch operation completed")).

Definition handleCheckout (args : Args) : M ToolResult :=
  let command := checkout_command args in
  let* (stdout, _) := execGit command (args !! "path") in
  ret (Text (or_text stdout ("Switched to branch '" +:+ template (args !! "branch") +:+ "'"))).

Definition handleMerge (args : Args) : M ToolResult :=
  let command := merge_command args in
  let* (stdout, _) := execGit command (args !! "path") in
  ret (Text stdout).

Definition handleLog (args : Args) : M ToolResult :=
  let command := log_command args in
  let* (stdout, _) := execGit command (args !! "path") in
  ret (Text stdout).

Definition handleDiff (args : Args) : M ToolResult :=
  let command := diff_command args in
  let* (stdout, _) := execGit command (args !! "path") in
  ret (Text (or_text stdout "No differences found")).

Definition handleStash (args : Args) : M ToolResult :=
  let command := stash_command args in
  let* (stdout, _) := execGit command (args !! "path") in
  ret (Text (or_text stdout "Stash operation completed")).

Definition handleRemote (args : Args) : M ToolResult :=
  let command := remote_command args in
  let* (stdout, _) := execGit command (args !! "path") in
  ret (Text (or_text stdout "Remote operation completed")).

Definition handleTag (args : Args) : M ToolResult :=
  let command := tag_command args in
  let* (stdout, _) := execGit command (args !! "path") in
  ret (Text (or_text stdout "Tag operation completed")).

Definition handleReset (args : Args) : M ToolResult :=
  let command := reset_command args in
  let* (stdout, _) := execGit command (args !! "path") in
  ret (Text (or_text stdout "Reset completed")).

Definition handler (t : tool) : Args → M ToolResult :=
  match t with
  | git_init => handleInit | git_clone => handleClone | git_status => handleStatus
  | git_add => handleAdd | git_commit => handleCommit | git_push => handlePush
  | git_pull => handlePull | git_branch => handleBranch | git_checkout => handleCheckout
  | git_merge => handleMerge | git_log => handleLog | git_diff => handleDiff
  | git_stash => handleStash | git_remote => handleRemote | git_tag => handleTag
  | git_reset => handleReset
  end.

(** The [CallToolRequestSchema] handler.  [request.params.arguments] is
    optional: [None] is a request without an argument object. *)
Definition callTool (name : string) (args : option Args) : M ToolResult :=
  try_catch
    (match tool_of_name name with
     | Some t =>
         match args with
         | Some args => handler t args
         | None => throw (undefined_read (first_read t))
         end
     | None => throw (McpError MethodNotFound ("Unknown tool: " +:+ name))
     end)
    (λ error,
       match error with
       | McpError _ _ => throw error
       | _ => throw (McpError InternalError ("Git error: " +:+ message error))
       end).

(** One call on a fresh log: what the caller gets and what was executed. *)
Definition call (name : string) (args : option Args) : (exn + ToolResult) * list exec_call :=
  callTool name args [].

End Dispatcher.

(** ** The dispatcher as one table

    Every handler composes, calls [execGit] once and wraps the output; the
    three tables below name the parts so that statements can range over all
    sixteen tools. *)

Definition command_of (t : tool) (args : Args) : exn + string :=
  match t with
  | git_init => inr (init_command args)
  | git_clone => inr (clone_command args)
  | git_status => inr (status_command args)
  | git_add => add_command args
  | git_commit => inr (commit_command args)
  | git_push => inr (push_command args)
  | git_pull => inr (pull_command args)
  | git_branch => inr (branch_command args)
  | git_checkout => inr (checkout_command args)
  | git_merge => inr (merge_command args)
  | git_log => inr (log_command args)
  | git_diff => inr (diff_command args)
  | git_stash => inr (stash_command args)
  | git_remote => inr (remote_command args)
  | git_tag => inr (tag_command args)
  | git_reset => inr (reset_command args)
  end.

(** The second argument each handler gives [execGit]: [handleInit] and
    [handleClone] give none, the others [args.path]. *)
Definition cwd_of (t : tool) (args : Args) : option value :=
  match t with
  | git_init | git_clone => None
  | _ => args !! "path"
  end.

(** The message a handler puts in place of an empty [stdout], if it has one. *)
Definition default_message (t : tool) (args : Args) : option string :=
  match t with
  | git_init => Some "Git repository initialized successfully"
  | git_clone => Some "Repository cloned successfully"
  | git_add => Some "Files added to staging area"
  | git_push => Some "Push completed successfully"
  | git_branch => Some "Branch operation completed"
  | git_checkout => Some ("Switched to branch '" +:+ template (args !! "branch") +:+ "'")
  | git_diff => Some "No differences found"
  | git_stash => Some "Stash operation completed"
  | git_remote => Some "Remote operation completed"
  | git_tag => Some "Tag operation completed"
  | git_reset => Some "Reset completed"
  | git_status | git_commit | git_pull | git_merge | git_log => None
  end.

Definition payload_of (t : tool) (args : Args) (stdout : string) : string :=
  match default_message t args with
  | Some msg => or_text stdout msg
  | None => stdout
  end.

(** What [execGit] passes on as [options.cwd]. *)
Definition exec_cwd (cwd : option value) : option value :=
  if truthy cwd then cwd else None.

(** What the [catch] of the request handler makes of a non-[McpError]. *)
Definition git_error (msg : string) : exn :=
  McpError InternalError ("Git error: " +:+ msg).

(** ** The shell's reading of a command line

    [exec] gives the line to [/bin/sh -c].  [sh_words] is the part of the
    shell's token recognition that the composed lines exercise: blanks
    separate words; [;], [&], [|] and a newline end a simple command; double
    quotes group, with backslash quoting only the characters the shell lets it
    quote there; single quotes group literally; a backslash outside quotes
    quotes the next character.  Expansions are left in the word as written,
    redirections and grouping are not told apart from word characters, and a
    line with an unclosed quote is a syntax error ([None]).  The result is the
    list of simple commands, each the list of its words. *)

Inductive sh_mode : Type := Bare | InDouble | InSingle.

Definition c_dq : ascii := Ascii false true false false false true false false.

Definition c_sq : ascii := "'"%char.

Definition c_bs : ascii := "\"%char.

Definition is_blank (c : ascii) : bool :=
  Ascii.eqb c " " || Ascii.eqb c "009".

Definition is_control (c : ascii) : bool :=
  Ascii.eqb c ";" || Ascii.eqb c "&" || Ascii.eqb c "|" || Ascii.eqb c "010".

(** Inside double quotes a backslash quotes only these. *)
Definition dq_escapable (c : ascii) : bool :=
  Ascii.eqb c c_dq || Ascii.eqb c c_bs || Ascii.eqb c "$" || Ascii.eqb c "`".

Definition put (cur : option string) (c : ascii) : option string :=
  Some (default EmptyString cur +:+ String c EmptyString).

Definition end_word (cur : option string) (words : list string) : list string :=
  match cur with
  | Some w => (words ++ [w])%list
  | None => words
  end.

Definition end_command (words : list string) (cmds : list (list string)) : list (list string) :=
  match words with
  | [] => cmds
  | _ => (cmds ++ [words])%list
  end.

Fixpoint sh_scan (mode : sh_mode) (cur : option string) (words : list string)
    (cmds : list (list string)) (s : string) : option (list (list string)) :=
  match s with
  | EmptyString =>
      match mode with
      | Bare => Some (end_command (end_word cur words) cmds)
      | _ => None
      end
  | String c rest =>
      match mode with
      | Bare =>
          if is_blank c then sh_scan Bare None (end_word cur words) cmds rest
          else if is_control c then
            sh_scan Bare None [] (end_command (end_word cur words) cmds) rest
          else if Ascii.eqb c c_dq then
            sh_scan InDouble (Some (default EmptyString cur)) words cmds rest
          else if Ascii.eqb c c_sq then
            sh_scan InSingle (Some (default EmptyString cur)) words cmds rest
          else if Ascii.eqb c c_bs then
            match rest with
            | String c' rest' => sh_scan Bare (put cur c') words cmds rest'
            | EmptyString => Some (end_command (end_word (put cur c) words) cmds)
            end
          else sh_scan Bare (put cur c) words cmds rest
      | InDouble =>
          if Ascii.eqb c c_dq then sh_scan Bare cur words cmds rest
          else if Ascii.eqb c c_bs then
            match rest with
            | String c' rest' =>
                if dq_escapable c' then sh_scan InDouble (put cur c') words cmds rest'
                else sh_scan InDouble (put (put cur c) c') words cmds rest'
            | EmptyString => None
            end
          else sh_scan InDouble (put cur c) words cmds rest
      | InSingle =>
          if Ascii.eqb c c_sq then sh_scan Bare cur words cmds rest
          else sh_scan InSingle (put cur c) words cmds rest
      end
  end.

Definition sh_words (line : string) : option (list (list string)) :=
  sh_scan Bare None [] [] line.

(** ** Vocabulary of the statements *)

(** The tools whose handler returns [stdout] as it is. *)
Definition verbatim_tools : list tool :=
  [git_status; git_commit; git_pull; git_merge; git_log].

#[global] Instance tool_eq_dec : EqDecision tool.
Proof. solve_decision. Defined.

(** [c1] is [c0] with the text [tok] put in at one place and nothing else
    changed. *)
Definition inserts (tok c0 c1 : string) : Prop :=
  ∃ pre post, c0 = pre +:+ post ∧ c1 = pre +:+ tok +:+ post.

(** The argument object with field [k] set to [o], where [None] removes it. *)
Definition with_field (k : string) (o : option value) (args : Args) : Args :=
  match o with
  | Some v => <[k := v]> args
  | None => delete k args
  end.

(** The boolean fields that a handler turns into a flag by a plain
    [if (args.f) command += ' --flag'].  Left out are add's [all] and
    [update] (arms of an if-else chain), pull's [ff] (tested against [false])
    and tag's [annotated] (tested together with [message]). *)
Inductive flag : Type :=
  | InitBare | CloneRecursive
  | StatusShort | StatusBranch | StatusPorcelain
  | CommitAll | CommitAmend
  | PushForce | PushSetUpstream | PushTags
  | PullRebase
  | BranchAll | BranchRemote
  | CheckoutCreate | CheckoutForce
  | MergeNoFf | MergeSquash
  | LogOneline | LogGraph
  | DiffCached | DiffStat | DiffNameOnly
  | StashIncludeUntracked
  | RemoteVerbose
  | TagForce.

Definition flag_tool (f : flag) : tool :=
  match f with
  | InitBare => git_init | CloneRecursive => git_clone
  | StatusShort | StatusBranch | StatusPorcelain => git_status
  | CommitAll | CommitAmend => git_commit
  | PushForce | PushSetUpstream | PushTags => git_push
  | PullRebase => git_pull
  | BranchAll | BranchRemote => git_branch
  | CheckoutCreate | CheckoutForce => git_checkout
  | MergeNoFf | MergeSquash => git_merge
  | LogOneline | LogGraph => git_log
  | DiffCached | DiffStat | DiffNameOnly => git_diff
  | StashIncludeUntracked => git_stash
  | RemoteVerbose => git_remote
  | TagForce => git_tag
  end.

Definition flag_field (f : flag) : string :=
  match f with
  | InitBare => "bare" | CloneRecursive => "recursive"
  | StatusShort => "short" | StatusBranch => "branch" | StatusPorcelain => "porcelain"
  | CommitAll => "all" | CommitAmend => "amend"
  | PushForce => "force" | PushSetUpstream => "setUpstream" | PushTags => "tags"
  | PullRebase => "rebase"
  | BranchAll => "all" | BranchRemote => "remote"
  | CheckoutCreate => "create" | CheckoutForce => "force"
  | MergeNoFf => "noFf" | MergeSquash => "squash"
  | LogOneline => "oneline" | LogGraph => "graph"
  | DiffCached => "cached" | DiffStat => "stat" | DiffNameOnly => "nameOnly"
  | StashIncludeUntracked => "includeUntracked"
  | RemoteVerbose => "verbose"
  | TagForce => "force"
  end.

(** The text the handler appends for the flag, blank included. *)
Definition flag_token (f : flag) : string :=
  match f with
  | InitBare => " --bare" | CloneRecursive => " --recursive"
  | StatusShort => " --short" | StatusBranch => " --branch"
  | StatusPorcelain => " --porcelain"
  | CommitAll => " --all" | CommitAmend => " --amend"
  | PushForce => " --force" | PushSetUpstream => " --set-upstream" | PushTags => " --tags"
  | PullRebase => " --rebase"
  | BranchAll => " --all" | BranchRemote => " --remote"
  | CheckoutCreate => " -b" | CheckoutForce => " --force"
  | MergeNoFf => " --no-ff" | MergeSquash => " --squash"
  | LogOneline => " --oneline" | LogGraph => " --graph"
  | DiffCached => " --cached" | DiffStat => " --stat" | DiffNameOnly => " --name-only"
  | StashIncludeUntracked => " --include-untracked"
  | RemoteVerbose => " -v"
  | TagForce => " -f"
  end.

(** Whether the handler reaches the flag's test at all: in branch, stash,
    remote and tag the flags sit inside one arm of [switch (args.action)]. *)
Definition flag_read (f : flag) (args : Args) : bool :=
  match f with
  | BranchAll | BranchRemote =>
      negb (is_str (args !! "action") "create")
      && negb (is_str (args !! "action") "delete")
      && negb (is_str (args !! "action") "rename")
  | StashIncludeUntracked => is_str (args !! "action") "save"
  | RemoteVerbose =>
      negb (is_str (args !! "action") "add")
      && negb (is_str (args !! "action") "remove")
      && negb (is_str (args !! "action") "set-url")
      && negb (is_str (args !! "action") "show")
  | TagForce => is_str (args !! "action") "create"
  | _ => true
  end.

(** The command of the flag's tool; none of them is add, whose composition
    alone can throw. *)
Definition flag_command (f : flag) (args : Args) : string :=
  match command_of (flag_tool f) args with
  | inr c => c
  | inl _ => EmptyString
  end.

(** A value the shell gives no meaning to inside double quotes. *)
Fixpoint is_plain (s : string) : bool :=
  match s with
  | EmptyString => true
  | String c rest => negb (dq_escapable c) && is_plain rest
  end.

(** ** The tool registry

    The answer of the [ListToolsRequestSchema] handler: for each tool its
    name, its description and its [inputSchema], that is the declared
    properties (type, enumeration and default, where given) and the required
    ones.  The descriptions of the single properties are left out. *)

Inductive jtype : Type :=
  | TString
  | TNumber
  | TBoolean
  | TArray (items : jtype).

Record property : Type := Property {
  p_name : string;
  p_type : jtype;
  p_enum : list string;
  p_default : option value
}.

Record tool_schema : Type := ToolSchema {
  ts_name : string;
  ts_description : string;
  ts_properties : list property;
  ts_required : list string
}.

Definition tools : list tool_schema :=
  [
    ToolSchema "git_init" "Initialize a new Git repository"
      [
       Property "path" TString [] None;
       Property "initialBranch" TString [] (Some (VStr "main"));
       Property "bare" TBoolean [] (Some (VBool false))
      ]
      [];
    ToolSchema "git_clone" "Clone a repository"
      [
       Property "url" TString [] None;
       Property "path" TString [] None;
       Property "branch" TString [] None;
       Property "depth" TNumber [] None;
       Property "recursive" TBoolean [] (Some (VBool true))
      ]
      ["url"];
    ToolSchema "git_status" "Show working tree status"
      [
       Property "path" TString [] None;
       Property "short" TBoolean [] (Some (VBool false));
       Property "branch" TBoolean [] (Some (VBool true));
       Property "porcelain" TBoolean [] (Some (VBool false))
      ]
      [];
    ToolSchema "git_add" "Add files to staging area"
      [
       Property "files" (TArray TString) [] None;
       Property "path" TString [] None;
       Property "all" TBoolean [] (Some (VBool false));
       Property "update" TBoolean [] (Some (VBool false))
      ]
      [];
    ToolSchema "git_commit" "Commit changes"
      [
       Property "message" TString [] None;
       Property "path" TString [] None;
       Property "all" TBoolean [] (Some (VBool false));
       Property "amend" TBoolean [] (Some (VBool false));
       Property "author" TString [] None
      ]
      ["message"];
    ToolSchema "git_push" "Push commits to remote"
      [
       Property "path" TString [] None;
       Property "remote" TString [] (Some (VStr "origin"));
       Property "branch" TString [] None;
       Property "force" TBoolean [] (Some (VBool false));
       Property "setUpstream" TBoolean [] (Some (VBool false));
       Property "tags" TBoolean [] (Some (VBool false))
      ]
      [];
    ToolSchema "git_pull" "Pull changes from remote"
      [
       Property "path" TString [] None;
       Property "remote" TString [] (Some (VStr "origin"));
       Property "branch" TString [] None;
       Property "rebase" TBoolean [] (Some (VBool false));
       Property "ff" TBoolean [] (Some (VBool true))
      ]
      [];
    ToolSchema "git_branch" "Manage branches"
      [
       Property "action" TString ["list"; "create"; "delete"; "rename"] (Some (VStr "list"));
       Property "name" TString [] None;
       Property "newName" TString [] None;
       Property "path" TString [] None;
       Property "all" TBoolean [] (Some (VBool false));
       Property "remote" TBoolean [] (Some (VBool false))
      ]
      [];
    ToolSchema "git_checkout" "Switch branches or restore files"
      [
       Property "branch" TString [] None;
       Property "path" TString [] None;
       Property "create" TBoolean [] (Some (VBool false));
       Property "force" TBoolean [] (Some (VBool false))
      ]
      ["branch"];
    ToolSchema "git_merge" "Merge branches"
      [
       Property "branch" TString [] None;
       Property "path" TString [] None;
       Property "message" TString [] None;
       Property "noFf" TBoolean [] (Some (VBool false));
       Property "squash" TBoolean [] (Some (VBool false))
      ]
      ["branch"];
    ToolSchema "git_log" "Show commit logs"
      [
       Property "path" TString [] None;
       Property "limit" TNumber [] (Some (VNum 10));
       Property "oneline" TBoolean [] (Some (VBool false));
       Property "graph" TBoolean [] (Some (VBool false));
       Property "author" TString [] None;
       Property "since" TString [] None;
       Property "until" TString [] None
      ]
      [];
    ToolSchema "git_diff" "Show changes between commits"
      [
       Property "path" TString [] None;
       Property "cached" TBoolean [] (Some (VBool false));
       Property "commit" TString [] None;
       Property "stat" TBoolean [] (Some (VBool false));
       Property "nameOnly" TBoolean [] (Some (VBool false))
      ]
      [];
    ToolSchema "git_stash" "Stash changes"
      [
       Property "action" TString ["save"; "pop"; "list"; "apply"; "drop"; "clear"] (Some (VStr "save"));
       Property "message" TString [] None;
       Property "path" TString [] None;
       Property "index" TNumber [] None;
       Property "includeUntracked" TBoolean [] (Some (VBool false))
      ]
      [];
    ToolSchema "git_remote" "Manage remotes"
      [
       Property "action" TString ["list"; "add"; "remove"; "show"; "set-url"] (Some (VStr "list"));
       Property "name" TString [] None;
       Property "url" TString [] None;
       Property "path" TString [] None;
       Property "verbose" TBoolean [] (Some (VBool false))
      ]
      [];
    ToolSchema "git_tag" "Manage tags"
      [
       Property "action" TString ["list"; "create"; "delete"] (Some (VStr "list"));
       Property "name" TString [] None;
       Property "message" TString [] None;
       Property "path" TString [] None;
       Property "annotated" TBoolean [] (Some (VBool false));
       Property "force" TBoolean [] (Some (VBool false))
      ]
      [];
    ToolSchema "git_reset" "Reset current HEAD to specified state"
      [
       Property "path" TString [] None;
       Property "mode" TString ["soft"; "mixed"; "hard"] (Some (VStr "mixed"));
       Property "commit" TString [] (Some (VStr "HEAD"))
      ]
      []
  ].

(** The names the registry advertises. *)
Definition advertised : list string := List.map ts_name tools.

(** The schema advertised under a tool's name. *)
Definition schema_of (t : tool) : option tool_schema :=
  List.find (λ s, String.eqb (ts_name s) (tool_name t)) tools.

(** The fields a tool's schema declares. *)
Definition declared (t : tool) : list string :=
  match schema_of t with
  | Some s => List.map p_name (ts_properties s)
  | None => []
  end.

(** The defaults a tool's schema documents, as pairs of field and value. *)
Definition documented_defaults (t : tool) : list (string * value) :=
  match schema_of t with
  | Some s =>
      List.flat_map
        (λ p, match p_default p with Some d => [(p_name p, d)] | None => [] end)
        (ts_properties s)
  | None => []
  end.


(** The fields a handler interpolates or compares as they are, without
    first testing them for truthiness: for these a falsy value is not the
    same as no value. *)
Definition read_as_given : list (tool * string) :=
  [(git_clone, "url"); (git_commit, "message"); (git_pull, "ff");
   (git_branch, "name"); (git_branch, "newName"); (git_checkout, "branch");
   (git_merge, "branch"); (git_stash, "index"); (git_remote, "name");
   (git_remote, "url"); (git_tag, "name"); (git_reset, "mode")].

(** The documented defaults no handler puts in for a missing field. *)
Definition defaults_not_applied : list (tool * string) :=
  [(git_init, "initialBranch"); (git_clone, "recursive"); (git_status, "branch");
   (git_log, "limit"); (git_stash, "action"); (git_reset, "mode")].

(** The string- and number-valued fields that a handler turns into an
    option by a plain [if (args.f) command += ...]. *)
Inductive valued : Type :=
  | InitInitialBranch | InitPath
  | ClonePath | CloneBranch | CloneDepth
  | CommitAuthor
  | PushBranch | PullBranch
  | MergeMessage
  | LogLimit | LogAuthor | LogSince | LogUntil
  | DiffCommit
  | StashMessage.

Definition valued_tool (o : valued) : tool :=
  match o with
  | InitInitialBranch | InitPath => git_init
  | ClonePath | CloneBranch | CloneDepth => git_clone
  | CommitAuthor => git_commit
  | PushBranch => git_push
  | PullBranch => git_pull
  | MergeMessage => git_merge
  | LogLimit | LogAuthor | LogSince | LogUntil => git_log
  | DiffCommit => git_diff
  | StashMessage => git_stash
  end.

Definition valued_field (o : valued) : string :=
  match o with
  | InitInitialBranch => "initialBranch" | InitPath => "path"
  | ClonePath => "path" | CloneBranch => "branch" | CloneDepth => "depth"
  | CommitAuthor => "author"
  | PushBranch => "branch" | PullBranch => "branch"
  | MergeMessage => "message"
  | LogLimit => "limit" | LogAuthor => "author" | LogSince => "since" | LogUntil => "until"
  | DiffCommit => "commit"
  | StashMessage => "message"
  end.

(** The text the handler appends for the option when the field prints as
    [s]. *)
Definition valued_token (o : valued) (s : string) : string :=
  match o with
  | InitInitialBranch => " --initial-branch=" +:+ quoted s
  | InitPath | ClonePath => " " +:+ quoted s
  | CloneBranch => " --branch " +:+ quoted s
  | CloneDepth => " --depth " +:+ s
  | CommitAuthor | LogAuthor => " --author=" +:+ quoted s
  | PushBranch | PullBranch | DiffCommit => " " +:+ s
  | MergeMessage | StashMessage => " -m " +:+ quoted s
  | LogLimit => " -" +:+ s
  | LogSince => " --since=" +:+ quoted s
  | LogUntil => " --until=" +:+ quoted s
  end.

(** Whether the handler reaches the option's test: stash reads [message]
    only under the action [save]. *)
Definition valued_read (o : valued) (args : Args) : bool :=
  match o with
  | StashMessage => is_str (args !! "action") "save"
  | _ => true
  end.

Definition valued_command (o : valued) (args : Args) : string :=
  match command_of (valued_tool o) args with
  | inr c => c
  | inl _ => EmptyString
  end.

(** [args.action] is one of the strings of [l]. *)
Definition action_in (args : Args) (l : list string) : Prop :=
  ∃ a, args !! "action" = Some (VStr a) ∧ a ∈ l.

(** The text [s] when [b] holds, nothing otherwise. *)
Definition opt (b : bool) (s : string) : string :=
  if b then s else EmptyString.

(** * Properties *)

(** ** Strings *)

Lemma append_cons c s1 s2 : String c s1 +:+ s2 = String c (s1 +:+ s2).
Proof. reflexivity. Qed.

Lemma append_nil_r s : s +:+ EmptyString = s.
Proof. induction s as [|c s IH]; [done|]. by rewrite append_cons, IH. Qed.

Lemma append_assoc s1 s2 s3 : (s1 +:+ s2) +:+ s3 = s1 +:+ s2 +:+ s3.
Proof. induction s1 as [|c s1 IH]; [done|]. by rewrite !append_cons, IH. Qed.

Lemma length_append s1 s2 :
  String.length (s1 +:+ s2) = String.length s1 + String.length s2.
Proof. induction s1 as [|c s1 IH]; [done|]. rewrite append_cons; simpl. by rewrite IH. Qed.

(** ** The dispatcher *)

Lemma tool_of_name_name t : tool_of_name (tool_name t) = Some t.
Proof. by destruct t. Qed.

Lemma tool_of_name_Some name t : tool_of_name name = Some t → name = tool_name t.
Proof.
  unfold tool_of_name. intros H.
  apply List.find_some in H as [_ H]. by apply String.eqb_eq in H.
Qed.

Lemma add_command_error args e : add_command args = inl e → ∃ m, e = TypeError m.
Proof.
  unfold add_command, files_joined.
  repeat case_match; intros; simplify_eq; eauto.
Qed.

Section DispatcherFacts.

Variable run : exec_call → Outcome.

(** Each handler is its composition, one [execGit], and its payload. *)
Lemma handler_unfold t args :
  handler run t args =
    (let* command := lift (command_of t args) in
     let* (stdout, _) := execGit run command (cwd_of t args) in
     ret (Text (payload_of t args stdout))).
Proof. by destruct t. Qed.

(** A call whose command composes executes exactly that line, once, and
    answers by the process outcome. *)
Lemma call_composed t args c :
  command_of t args = inr c →
  call run (tool_name t) (Some args) =
    let ec := ExecCall ("git " +:+ c) (exec_cwd (cwd_of t args)) in
    (match run ec with
     | Exited code stdout stderr =>
         if (code =? 0)%Z then inr (Text (payload_of t args stdout))
         else inl (git_error ("Command failed: " +:+ ("git " +:+ c) +:+ nl +:+ stderr))
     | Failed msg => inl (git_error msg)
     end, [ec]).
Proof.
  intros Hc. unfold call, callTool. rewrite tool_of_name_name, handler_unfold, Hc.
  unfold try_catch, bind, lift, ret, execGit, execAsync, exec_cwd, git_error; simpl.
  destruct (run _) as [code out err|msg]; [destruct (code =? 0)%Z|]; done.
Qed.

(** A call whose composition throws executes nothing. *)
Lemma call_compose_error t args e :
  command_of t args = inl e →
  call run (tool_name t) (Some args) = (inl (git_error (message e)), []).
Proof.
  intros Hc. unfold call, callTool. rewrite tool_of_name_name, handler_unfold, Hc.
  assert (∃ m, e = TypeError m) as [m ->].
  { destruct t; simplify_eq/=. by eapply add_command_error. }
  done.
Qed.

Lemma call_no_arguments t :
  call run (tool_name t) None = (inl (git_error (message (undefined_read (first_read t)))), []).
Proof. unfold call, callTool. by rewrite tool_of_name_name. Qed.

Lemma call_unknown name :
  tool_of_name name = None →
  call run name None = (inl (McpError MethodNotFound ("Unknown tool: " +:+ name)), [])
  ∧ ∀ args, call run name args = (inl (McpError MethodNotFound ("Unknown tool: " +:+ name)), []).
Proof. intros H. unfold call, callTool. by rewrite H. Qed.

End DispatcherFacts.

(** The log of a call never depends on how the process ends. *)
Lemma call_log run t args c :
  command_of t args = inr c →
  (call run (tool_name t) (Some args)).2
  = [ExecCall ("git " +:+ c) (exec_cwd (cwd_of t args))].
Proof. intros Hc. by rewrite (call_composed run t args c Hc). Qed.

(** ** Quoting *)

(** C1 (fails on the code).  A value is interpolated between double quotes
    without escaping, so a commit message that contains a double quote ends
    the quoted word early: the line the handler executes for the message
    [a"; rm -rf /; echo "] is read by the shell as three commands, and the
    message is not a word of any of them.  Fields interpolated without quotes
    (here the branch of push) split at the first blank or [;]. *)
Theorem commit_message_breaks_out :
  let msg := "a" +:+ dq +:+ "; rm -rf /; echo " +:+ dq in
  let args : Args := {[ "message" := VStr msg ]} in
  let branch : Args := {[ "branch" := VStr "main; echo x" ]} in
  ∀ run,
    ((call run "git_commit" (Some args)).2
       = [ExecCall ("git commit -m " +:+ quoted msg) None]
     ∧ sh_words ("git commit -m " +:+ quoted msg)
       = Some [["git"; "commit"; "-m"; "a"]; ["rm"; "-rf"; "/"]; ["echo"; EmptyString]])
    ∧ ((call run "git_push" (Some branch)).2
         = [ExecCall "git push origin main; echo x" None]
       ∧ sh_words "git push origin main; echo x"
         = Some [["git"; "push"; "origin"; "main"]; ["echo"; "x"]]).
Proof.
  intros msg args branch run. split; split.
  - change "git_commit" with (tool_name git_commit). rewrite (call_log run git_commit args _ eq_refl). by vm_compute.
  - by vm_compute.
  - change "git_push" with (tool_name git_push). rewrite (call_log run git_push branch _ eq_refl). by vm_compute.
  - by vm_compute.
Qed.

(** ** Required fields *)

(** C2 (fails on the code).  No handler looks whether a required field is
    there: with an empty argument object the text [undefined] is interpolated
    in its place and the line is executed, whatever the process then does. *)
Theorem required_field_omitted_still_executes :
  ∀ run,
    (call run "git_clone" (Some ∅)).2 = [ExecCall ("git clone " +:+ quoted "undefined") None]
    ∧ (call run "git_commit" (Some ∅)).2
      = [ExecCall ("git commit -m " +:+ quoted "undefined") None]
    ∧ (call run "git_checkout" (Some ∅)).2
      = [ExecCall ("git checkout " +:+ quoted "undefined") None]
    ∧ (call run "git_merge" (Some ∅)).2
      = [ExecCall ("git merge " +:+ quoted "undefined") None].
Proof.
  intros run. split; [|split; [|split]].
  - change "git_clone" with (tool_name git_clone). rewrite (call_log run git_clone ∅ _ eq_refl). by vm_compute.
  - change "git_commit" with (tool_name git_commit). rewrite (call_log run git_commit ∅ _ eq_refl). by vm_compute.
  - change "git_checkout" with (tool_name git_checkout). rewrite (call_log run git_checkout ∅ _ eq_refl). by vm_compute.
  - change "git_merge" with (tool_name git_merge). rewrite (call_log run git_merge ∅ _ eq_refl). by vm_compute.
Qed.

(** ** Defaults *)

(** C5 (fails on the code).  With an empty argument object push falls back
    to [origin], but reset interpolates the missing mode as [undefined] and
    log appends no limit at all. *)
Theorem empty_bundle_defaults :
  push_command ∅ = "push origin"
  ∧ reset_command ∅ = "reset --undefined HEAD"
  ∧ log_command ∅ = "log".
Proof. by vm_compute. Qed.

(** C6 (fails on the code).  A clone request that omits [recursive] composes
    no [--recursive]; only an explicit [true] does.  Url, path, branch and
    depth come in that order. *)
Theorem clone_recursive_omitted :
  clone_command {[ "url" := VStr "u" ]} = "clone " +:+ quoted "u"
  ∧ clone_command (<["recursive" := VBool true]> {[ "url" := VStr "u" ]})
    = "clone " +:+ quoted "u" +:+ " --recursive"
  ∧ clone_command (<["recursive" := VBool false]> {[ "url" := VStr "u" ]})
    = "clone " +:+ quoted "u"
  ∧ clone_command
      (<["depth" := VNum 1]> (<["branch" := VStr "b"]> (<["path" := VStr "p"]>
        {[ "url" := VStr "u" ]})))
    = "clone " +:+ quoted "u" +:+ " " +:+ quoted "p" +:+ " --branch " +:+ quoted "b"
      +:+ " --depth 1".
Proof. by vm_compute. Qed.

(** ** add *)

(** C9.  When neither [all] nor [update] is set, an empty [files] array
    composes the same command as no [files] field: [add .]. *)
Theorem add_empty_files_is_add_dot (args : Args) :
  truthy (args !! "all") = false →
  truthy (args !! "update") = false →
  add_command (<["files" := VArr []]> args) = inr "add ."
  ∧ add_command (delete "files" args) = inr "add ."
  ∧ add_command (<["files" := VArr []]> args) = add_command (delete "files" args).
Proof.
  intros Hall Hupd. unfold add_command.
  rewrite !lookup_insert_ne, !lookup_delete_ne, Hall, Hupd by done.
  by rewrite lookup_insert_eq, lookup_delete_eq.
Qed.

Lemma add_empty_files_is_add_dot_witness :
  add_command (<["files" := VArr []]> ∅) = inr "add ."
  ∧ add_command (delete "files" ∅) = inr "add ."
  ∧ add_command (<["files" := VArr []]> ∅) = add_command (delete "files" ∅).
Proof. apply (add_empty_files_is_add_dot ∅); reflexivity. Defined.

(** ** stash *)

(** C10.  For pop, apply and drop the positional [stash@{...}] is appended
    for every [index] that is present, index 0 included, and is left out
    exactly when [index] is not supplied. *)
Theorem stash_index_present (args : Args) (action : string) :
  action ∈ ["pop"; "apply"; "drop"] →
  (∀ v, stash_command (<["index" := v]> (<["action" := VStr action]> args))
        = "stash " +:+ action +:+ " stash@{" +:+ to_string v +:+ "}")
  ∧ stash_command (<["index" := VNum 0]> (<["action" := VStr action]> args))
    = "stash " +:+ action +:+ " stash@{0}"
  ∧ stash_command (delete "index" (<["action" := VStr action]> args))
    = "stash " +:+ action.
Proof.
  intros Hin. unfold stash_command, stash_ref.
  split; [intros v|split].
  all: rewrite ?lookup_insert_eq, ?lookup_delete_eq.
  all: rewrite ?lookup_insert_ne, ?lookup_delete_ne, ?lookup_insert_eq by done.
  all: set_unfold in Hin; destruct Hin as [->|[->|[->|[]]]]; by vm_compute.
Qed.

Lemma stash_index_present_witness :
  (∀ v, stash_command (<["index" := v]> (<["action" := VStr "pop"]> ∅))
        = "stash " +:+ "pop" +:+ " stash@{" +:+ to_string v +:+ "}")
  ∧ stash_command (<["index" := VNum 0]> (<["action" := VStr "pop"]> ∅))
    = "stash " +:+ "pop" +:+ " stash@{0}"
  ∧ stash_command (delete "index" (<["action" := VStr "pop"]> ∅))
    = "stash " +:+ "pop".
Proof. apply (stash_index_present ∅ "pop"). by left. Defined.

(** ** pull *)

Lemma is_false_spec o : is_false o = true ↔ o = Some (VBool false).
Proof. destruct o as [[|[]| | |]|]; simpl; split; congruence. Qed.

Ltac flag_mem :=
  simpl; rewrite ?list_elem_of_In; simpl; intuition (try discriminate; congruence).

(** C7.  The pull command is [pull], then the flags, then the remote, then
    the branch, joined by single blanks: [--no-ff] is among the flags exactly
    when [ff] is the boolean [false], [--rebase] exactly when [rebase] is set
    (for a boolean: when it is [true]), and there is no other flag; the
    remote is [origin] when none is given; the branch positional is there
    only when a branch is given. *)
Theorem pull_command_tokens (args : Args) :
  ∃ flags remote branch,
    pull_command args = String.concat " " ("pull" :: (flags ++ remote :: branch)%list)
    ∧ ("--no-ff" ∈ flags ↔ args !! "ff" = Some (VBool false))
    ∧ ("--rebase" ∈ flags ↔ truthy (args !! "rebase") = true)
    ∧ (∀ b, args !! "rebase" = Some (VBool b) → "--rebase" ∈ flags ↔ b = true)
    ∧ (∀ f, f ∈ flags → f = "--rebase" ∨ f = "--no-ff")
    ∧ (args !! "remote" = None → remote = "origin")
    ∧ (∀ r, args !! "remote" = Some (VStr r) → r ≠ EmptyString → remote = r)
    ∧ (args !! "branch" = None → branch = [])
    ∧ (∀ b, args !! "branch" = Some (VStr b) → b ≠ EmptyString → branch = [b])
    ∧ (branch ≠ [] → is_Some (args !! "branch")).
Proof.
  exists ((if truthy (args !! "rebase") then ["--rebase"] else [])
          ++ (if is_false (args !! "ff") then ["--no-ff"] else []))%list,
    (or_default (args !! "remote") "origin"),
    (if truthy (args !! "branch") then [template (args !! "branch")] else []).
  split; [|split; [|split; [|split; [|split; [|split; [|split; [|split; [|split]]]]]]]].
  - unfold pull_command.
    destruct (truthy (args !! "rebase")), (is_false (args !! "ff")),
      (truthy (args !! "branch")); simpl; by rewrite ?append_assoc.
  - rewrite <- is_false_spec.
    destruct (truthy (args !! "rebase")), (is_false (args !! "ff"));
      flag_mem.
  - destruct (truthy (args !! "rebase")), (is_false (args !! "ff"));
      flag_mem.
  - intros b ->. simpl. destruct b, (is_false (args !! "ff")); flag_mem.
  - intros f. destruct (truthy (args !! "rebase")), (is_false (args !! "ff"));
      flag_mem.
  - by intros ->.
  - intros r -> Hr. unfold or_default. simpl.
    by destruct r.
  - by intros ->.
  - intros b -> Hb. simpl. by destruct b.
  - destruct (args !! "branch"); [eauto|done].
Qed.

(** ** Failures *)

(** C3.  If the process a call runs exits with a non-zero status, or [exec]
    fails in any other way, the call fails with an [InternalError] whose
    message is not empty and carries the error output (or the error's own
    message), and that one [exec] call is all the call did. *)
Theorem failed_process_is_failure (run : exec_call → Outcome)
    (name : string) (args : option Args) (ec : exec_call) :
  In ec (call run name args).2 →
  match run ec with Exited code _ _ => code ≠ 0%Z | Failed _ => True end →
  ∃ msg,
    call run name args = (inl (McpError InternalError msg), [ec])
    ∧ msg ≠ EmptyString
    ∧ (∀ code stdout stderr, run ec = Exited code stdout stderr →
         msg = "Git error: " +:+ "Command failed: " +:+ ec_command ec +:+ nl +:+ stderr)
    ∧ (∀ m, run ec = Failed m → msg = "Git error: " +:+ m).
Proof.
  intros Hin Hfail.
  destruct (tool_of_name name) as [t|] eqn:Ht.
  2: { destruct (call_unknown run name Ht) as [_ H]. rewrite H in Hin. destruct Hin. }
  apply tool_of_name_Some in Ht as ->.
  destruct args as [args|].
  2: { rewrite call_no_arguments in Hin. destruct Hin. }
  destruct (command_of t args) as [e|c] eqn:Hc.
  { rewrite (call_compose_error run t args e Hc) in Hin. destruct Hin. }
  rewrite (call_composed run t args c Hc) in *. simpl in Hin.
  destruct Hin as [<-|[]]. simpl in *.
  destruct (run _) as [code out err|m] eqn:Hrun.
  - destruct (code =? 0)%Z eqn:Hz; [apply Z.eqb_eq in Hz; done|].
    eexists; split; [reflexivity|]. split; [done|].
    split; [intros ??? [= _ _ ->]; done | intros ? [=]].
  - eexists; split; [reflexivity|]. split; [done|].
    split; [intros ??? [=] | intros ? [= ->]; done].
Qed.

Lemma failed_process_is_failure_witness :
  ∃ msg,
    call (λ _, Exited 128 EmptyString "fatal: not a git repository") "git_status" (Some ∅)
    = (inl (McpError InternalError msg), [ExecCall "git status" None])
    ∧ msg ≠ EmptyString
    ∧ (∀ code stdout stderr,
         Exited 128 EmptyString "fatal: not a git repository" = Exited code stdout stderr →
         msg = "Git error: " +:+ "Command failed: " +:+ "git status" +:+ nl +:+ stderr)
    ∧ (∀ m, Exited 128 EmptyString "fatal: not a git repository" = Failed m →
         msg = "Git error: " +:+ m).
Proof.
  apply (failed_process_is_failure
           (λ _, Exited 128 EmptyString "fatal: not a git repository")
           "git_status" (Some ∅) (ExecCall "git status" None)).
  - vm_compute. left. reflexivity.
  - simpl. lia.
Defined.

(** ** Successful output *)

(** C4 (as stated).  A successful status with empty output returns the empty
    text. *)
Lemma status_empty_output_is_empty :
  call (λ _, Exited 0 EmptyString EmptyString) "git_status" (Some ∅)
  = (inr (Text EmptyString), [ExecCall "git status" None]).
Proof. by vm_compute. Qed.

(** C4 (amended).  On exit status zero a non-empty [stdout] is returned as it
    is.  An empty one is replaced by the handler's own non-empty message for
    init, clone, add, push, branch, checkout, diff, stash, remote, tag and
    reset; status, commit, pull, merge and log return the empty text. *)
Theorem success_payload (run : exec_call → Outcome) (t : tool) (args : Args)
    (c stdout stderr : string) :
  command_of t args = inr c →
  run (ExecCall ("git " +:+ c) (exec_cwd (cwd_of t args))) = Exited 0 stdout stderr →
  ∃ payload,
    (call run (tool_name t) (Some args)).1 = inr (Text payload)
    ∧ (stdout ≠ EmptyString → payload = stdout)
    ∧ (stdout = EmptyString →
         if bool_decide (t ∈ verbatim_tools) then payload = EmptyString
         else payload ≠ EmptyString ∧ default_message t args = Some payload).
Proof.
  intros Hc Hrun. rewrite (call_composed run t args c Hc). simpl. rewrite Hrun. simpl.
  eexists; split; [reflexivity|]. unfold payload_of. split.
  - intros Hne. destruct (default_message t args); [|done].
    unfold or_text. by destruct stdout.
  - intros ->. destruct t; simpl; done.
Qed.

Lemma success_payload_witness :
  ∃ payload,
    (call (λ _, Exited 0 EmptyString EmptyString) (tool_name git_add) (Some ∅)).1
    = inr (Text payload)
    ∧ (EmptyString ≠ EmptyString → payload = EmptyString)
    ∧ (EmptyString = EmptyString →
         if bool_decide (git_add ∈ verbatim_tools) then payload = EmptyString
         else payload ≠ EmptyString ∧ default_message git_add ∅ = Some payload).
Proof.
  apply (success_payload (λ _, Exited 0 EmptyString EmptyString) git_add ∅
           "add ." EmptyString EmptyString); reflexivity.
Defined.

(** ** Boolean flags *)
Lemma inserts_here tok c : inserts tok c (c +:+ tok).
Proof. exists c, EmptyString. by rewrite !append_nil_r. Qed.

Lemma inserts_append tok c0 c1 s : inserts tok c0 c1 → inserts tok (c0 +:+ s) (c1 +:+ s).
Proof.
  intros (pre & post & -> & ->). exists pre, (post +:+ s).
  by rewrite !append_assoc.
Qed.

Lemma inserts_length tok c0 c1 :
  inserts tok c0 c1 → String.length c1 = String.length c0 + String.length tok.
Proof. intros (pre & post & -> & ->). rewrite !length_append. lia. Qed.

Lemma lookup_with_field_eq k o (args : Args) : with_field k o args !! k = o.
Proof. destruct o; simpl; [apply lookup_insert_eq | apply lookup_delete_eq]. Qed.

Lemma lookup_with_field_ne k k' o (args : Args) :
  k ≠ k' → with_field k o args !! k' = args !! k'.
Proof. intros. destruct o; simpl; [by apply lookup_insert_ne | by apply lookup_delete_ne]. Qed.

(** C8 (as stated).  In add, [all] is the first arm of an if-else chain:
    setting it replaces [--update] instead of adding a token to it. *)
Lemma add_all_replaces_update :
  let a0 : Args := {[ "update" := VBool true ]} in
  let a1 : Args := <["all" := VBool true]> a0 in
  add_command a0 = inr "add --update"
  ∧ add_command a1 = inr "add --all"
  ∧ ¬ inserts " --all" "add --update" "add --all".
Proof.
  split; [by vm_compute|]. split; [by vm_compute|].
  intros H. apply inserts_length in H. simpl in H. lia.
Qed.

Lemma flag_command_composes f args :
  command_of (flag_tool f) args = inr (flag_command f args).
Proof. by destruct f. Qed.

Ltac flag_lookups :=
  rewrite ?lookup_with_field_eq;
  rewrite ?lookup_with_field_ne by done.

Ltac flag_steps :=
  repeat first [apply inserts_here | apply inserts_append].

(** C8 (amended).  For each flag of [flag] whose test the handler reaches,
    the command composed with the field [true] is the command composed with
    the field absent or [false] with exactly the flag's token put in, every
    other character unchanged. *)
Theorem flag_toggle (f : flag) (args : Args) (off : option value) :
  flag_read f args = true →
  off = None ∨ off = Some (VBool false) →
  ∃ c0 c1,
    command_of (flag_tool f) (with_field (flag_field f) off args) = inr c0
    ∧ command_of (flag_tool f) (with_field (flag_field f) (Some (VBool true)) args) = inr c1
    ∧ inserts (flag_token f) c0 c1.
Proof.
  intros Hread Hoff.
  assert (truthy off = false) as Hfalse by (by destruct Hoff as [->| ->]).
  eexists _, _. split; [|split]; [apply flag_command_composes..|].
  destruct f; cbn [flag_tool flag_field flag_token flag_read] in *.
  all: unfold flag_command; cbn [flag_tool command_of].
  all: unfold init_command, clone_command, status_command, commit_command,
         push_command, pull_command, branch_command, checkout_command, merge_command,
         log_command, diff_command, stash_command, remote_command, tag_command.
  all: flag_lookups; rewrite ?Hfalse; cbn [truthy].
  all: repeat match goal with |- context [if ?b then _ else _] => destruct b eqn:? end.
  all: try done.
  all: flag_steps.
Qed.

Lemma flag_toggle_witness :
  ∃ c0 c1,
    command_of git_push (with_field "force" None ∅) = inr c0
    ∧ command_of git_push (with_field "force" (Some (VBool true)) ∅) = inr c1
    ∧ inserts " --force" c0 c1.
Proof. apply (flag_toggle PushForce ∅ None); [reflexivity | by left]. Defined.

(** ** What the quotes do achieve *)

Lemma sh_scan_quoted_plain s :
  is_plain s = true →
  ∀ w words cmds rest,
    sh_scan InDouble (Some w) words cmds (s +:+ dq +:+ rest)
    = sh_scan Bare (Some (w +:+ s)) words cmds rest.
Proof.
  induction s as [|c s IH]; intros Hs w words cmds rest.
  - by rewrite append_nil_r.
  - simpl in Hs. apply andb_prop in Hs as [Hc Hs].
    apply negb_true_iff in Hc. unfold dq_escapable in Hc.
    apply orb_false_elim in Hc as [Hc _].
    apply orb_false_elim in Hc as [Hc _].
    apply orb_false_elim in Hc as [Hq Hb].
    rewrite append_cons. simpl. rewrite Hq, Hb.
    unfold put. simpl. rewrite (IH Hs). by rewrite append_assoc.
Qed.

(** A message without double quote, backslash, dollar or backquote does
    reach git as one word. *)
Lemma plain_commit_message_is_one_word m :
  is_plain m = true →
  sh_words ("git " +:+ commit_command {[ "message" := VStr m ]})
  = Some [["git"; "commit"; "-m"; m]].
Proof.
  intros Hm. unfold commit_command.
  rewrite lookup_singleton_eq, !lookup_singleton_ne by done. simpl.
  unfold quoted, sh_words.
  change (sh_scan InDouble (Some EmptyString) ["git"; "commit"; "-m"] []
            (m +:+ dq +:+ EmptyString) = Some [["git"; "commit"; "-m"; m]]).
  by rewrite (sh_scan_quoted_plain m Hm).
Qed.

(** * Further properties of the dispatcher *)

(** ** Names *)

Lemma advertised_dispatched name :
  name ∈ advertised ↔ is_Some (tool_of_name name).
Proof.
  split.
  - intros Hin. unfold advertised in Hin. simpl in Hin.
    rewrite list_elem_of_In in Hin. simpl in Hin.
    repeat (destruct Hin as [<-|Hin]; [by eexists|]). destruct Hin.
  - intros [t Ht]. apply tool_of_name_Some in Ht as ->.
    rewrite list_elem_of_In. destruct t; simpl; tauto.
Qed.


(** X1.  A name the registry does not advertise is answered with
    [MethodNotFound] naming it, whatever the arguments, and nothing is
    executed; the error is not rewrapped as a git error. *)
Theorem unadvertised_name_rejected (run : exec_call → Outcome)
    (name : string) (args : option Args) :
  name ∉ advertised →
  call run name args = (inl (McpError MethodNotFound ("Unknown tool: " +:+ name)), []).
Proof.
  intros Hname. destruct (tool_of_name name) as [t|] eqn:Ht.
  - exfalso. apply Hname, advertised_dispatched. by eexists.
  - by apply call_unknown.
Qed.

Lemma unadvertised_name_rejected_witness :
  call (λ _, Exited 0 EmptyString EmptyString) "git_rebase" (Some ∅)
  = (inl (McpError MethodNotFound ("Unknown tool: " +:+ "git_rebase")), []).
Proof.
  apply (unadvertised_name_rejected (λ _, Exited 0 EmptyString EmptyString)
           "git_rebase" (Some ∅)).
  rewrite list_elem_of_In. vm_compute. intuition discriminate.
Defined.

(** ** One call, one process *)

(** Every call is of one of four kinds. *)
Lemma call_cases (run : exec_call → Outcome) name args :
  (tool_of_name name = None)
  ∨ (∃ t, name = tool_name t ∧ args = None)
  ∨ (∃ t a e, name = tool_name t ∧ args = Some a ∧ command_of t a = inl e)
  ∨ (∃ t a c, name = tool_name t ∧ args = Some a ∧ command_of t a = inr c).
Proof.
  destruct (tool_of_name name) as [t|] eqn:Ht; [|by left].
  apply tool_of_name_Some in Ht as ->. right.
  destruct args as [a|]; [|left; by eexists].
  right. destruct (command_of t a) as [e|c] eqn:Hc; [left|right]; by eexists _, _, _.
Qed.

(** X2.  No call runs more than one process: the log of a call is empty or
    holds a single [exec] call. *)
Theorem at_most_one_exec (run : exec_call → Outcome) (name : string) (args : option Args) :
  (call run name args).2 = [] ∨ ∃ ec, (call run name args).2 = [ec].
Proof.
  destruct (call_cases run name args)
    as [Hn|[(t & -> & ->)|[(t & a & e & -> & -> & Hc)|(t & a & c & -> & -> & Hc)]]].
  - left. destruct (call_unknown run name Hn) as [_ H]. by rewrite H.
  - left. by rewrite call_no_arguments.
  - left. by rewrite (call_compose_error run t a e Hc).
  - right. rewrite (call_log run t a c Hc). by eexists.
Qed.

(** X3.  A call succeeds only if it ran its command and the process exited
    with status zero; the text it returns is then made from that process's
    standard output alone. *)
Theorem success_only_after_zero_exit (run : exec_call → Outcome)
    (name : string) (args : option Args) (r : ToolResult) :
  (call run name args).1 = inr r →
  ∃ t a c stdout stderr,
    name = tool_name t ∧ args = Some a ∧ command_of t a = inr c
    ∧ (call run name args).2 = [ExecCall ("git " +:+ c) (exec_cwd (cwd_of t a))]
    ∧ run (ExecCall ("git " +:+ c) (exec_cwd (cwd_of t a))) = Exited 0 stdout stderr
    ∧ r = Text (payload_of t a stdout).
Proof.
  intros Hr.
  destruct (call_cases run name args)
    as [Hn|[(t & -> & ->)|[(t & a & e & -> & -> & Hc)|(t & a & c & -> & -> & Hc)]]].
  - destruct (call_unknown run name Hn) as [_ H]. by rewrite H in Hr.
  - by rewrite call_no_arguments in Hr.
  - by rewrite (call_compose_error run t a e Hc) in Hr.
  - exists t, a, c. rewrite (call_composed run t a c Hc) in *. simpl in *.
    destruct (run _) as [code out err|m]; [|done].
    destruct (code =? 0)%Z eqn:Hz; [|done].
    apply Z.eqb_eq in Hz as ->. exists out, err. by simplify_eq.
Qed.

Lemma success_only_after_zero_exit_witness :
  ∃ t a c stdout stderr,
    "git_diff" = tool_name t ∧ Some (∅ : Args) = Some a ∧ command_of t a = inr c
    ∧ (call (λ _, Exited 0 EmptyString EmptyString) "git_diff" (Some ∅)).2
      = [ExecCall ("git " +:+ c) (exec_cwd (cwd_of t a))]
    ∧ (λ _, Exited 0 EmptyString EmptyString)
        (ExecCall ("git " +:+ c) (exec_cwd (cwd_of t a))) = Exited 0 stdout stderr
    ∧ Text "No differences found" = Text (payload_of t a stdout).
Proof.
  apply (success_only_after_zero_exit (λ _, Exited 0 EmptyString EmptyString)
           "git_diff" (Some ∅) (Text "No differences found")).
  reflexivity.
Defined.

(** ** The executed line *)








(** X5.  init and clone never set a working directory: their [path] is only
    a positional of the command.  Every other tool runs in [args.path] when
    that is truthy, and in the server's own directory when it is absent or
    empty. *)
Theorem working_directory (run : exec_call → Outcome)
    (t : tool) (args : Args) (ec : exec_call) :
  In ec (call run (tool_name t) (Some args)).2 →
  match ec_cwd ec with
  | None => t = git_init ∨ t = git_clone ∨ truthy (args !! "path") = false
  | Some p => t ≠ git_init ∧ t ≠ git_clone ∧ args !! "path" = Some p ∧ truthy (Some p) = true
  end.
Proof.
  intros Hin. destruct (command_of t args) as [e|c] eqn:Hc.
  { by rewrite (call_compose_error run t args e Hc) in Hin. }
  rewrite (call_log run t args c Hc) in Hin. destruct Hin as [<-|[]].
  simpl. unfold exec_cwd.
  destruct t; simpl; auto.
  all: destruct (truthy (args !! "path")) eqn:Hp; auto.
  all: destruct (args !! "path"); done.
Qed.

Lemma working_directory_witness :
  match ec_cwd (ExecCall "git status" (Some (VStr "/repo"))) with
  | None => git_status = git_init ∨ git_status = git_clone
            ∨ truthy (({[ "path" := VStr "/repo" ]} : Args) !! "path") = false
  | Some p => git_status ≠ git_init ∧ git_status ≠ git_clone
              ∧ ({[ "path" := VStr "/repo" ]} : Args) !! "path" = Some p
              ∧ truthy (Some p) = true
  end.
Proof.
  apply (working_directory (λ _, Failed "spawn /bin/sh ENOENT") git_status
           {[ "path" := VStr "/repo" ]} (ExecCall "git status" (Some (VStr "/repo")))).
  vm_compute. left. reflexivity.
Defined.

(** ** Fields *)

Ltac unfold_commands :=
  unfold command_of, cwd_of, default_message,
    init_command, clone_command, status_command, add_command, commit_command,
    push_command, pull_command, branch_command, checkout_command, merge_command,
    log_command, diff_command, stash_command, stash_ref, remote_command, tag_command,
    reset_command.

(** Turn [k ∉ declared t], for a given [t], into the inequalities it holds. *)
Ltac declared_fields H :=
  match type of H with
  | ?k ∉ declared ?t =>
      let l := eval vm_compute in (declared t) in
      change (k ∉ l) in H; rewrite ?not_elem_of_cons in H; destruct_and?
  end.

(** A call is determined by its command, the directory given to [exec] and
    the default message. *)
Lemma call_ext (run : exec_call → Outcome) t a1 a2 :
  command_of t a1 = command_of t a2 →
  exec_cwd (cwd_of t a1) = exec_cwd (cwd_of t a2) →
  default_message t a1 = default_message t a2 →
  call run (tool_name t) (Some a1) = call run (tool_name t) (Some a2).
Proof.
  intros Hc Hw Hd.
  destruct (command_of t a2) as [e|c] eqn:Hc2.
  - by rewrite (call_compose_error run t a1 e Hc), (call_compose_error run t a2 e Hc2).
  - rewrite (call_composed run t a1 c Hc), (call_composed run t a2 c Hc2).
    unfold payload_of. by rewrite Hw, Hd.
Qed.

(** Two argument objects that agree on the declared fields give the same
    command, directory and default message. *)
Lemma undeclared_parts t k (args args' : Args) :
  k ∉ declared t →
  (∀ x, x ≠ k → args' !! x = args !! x) →
  command_of t args' = command_of t args
  ∧ exec_cwd (cwd_of t args') = exec_cwd (cwd_of t args)
  ∧ default_message t args' = default_message t args.
Proof.
  intros Hk Hagree.
  destruct t; declared_fields Hk.
  all: unfold_commands; rewrite ?Hagree by done; done.
Qed.

(** X6.  A handler reads only the fields its schema declares: adding,
    changing or removing any other field of the argument object changes
    nothing of the call, neither what is executed nor what is returned. *)
Theorem undeclared_field_ignored (run : exec_call → Outcome)
    (t : tool) (k : string) (v : value) (args : Args) :
  k ∉ declared t →
  call run (tool_name t) (Some (<[k := v]> args)) = call run (tool_name t) (Some args)
  ∧ call run (tool_name t) (Some (delete k args)) = call run (tool_name t) (Some args).
Proof.
  intros Hk. split.
  - destruct (undeclared_parts t k args (<[k := v]> args) Hk) as (? & ? & ?).
    { intros x Hx. by apply lookup_insert_ne. }
    by apply call_ext.
  - destruct (undeclared_parts t k args (delete k args) Hk) as (? & ? & ?).
    { intros x Hx. by apply lookup_delete_ne. }
    by apply call_ext.
Qed.

Lemma undeclared_field_ignored_witness :
  call (λ _, Exited 0 EmptyString EmptyString) (tool_name git_push)
    (Some (<["upstream" := VStr "x"]> ∅))
  = call (λ _, Exited 0 EmptyString EmptyString) (tool_name git_push) (Some ∅)
  ∧ call (λ _, Exited 0 EmptyString EmptyString) (tool_name git_push)
      (Some (delete "upstream" ∅))
    = call (λ _, Exited 0 EmptyString EmptyString) (tool_name git_push) (Some ∅).
Proof.
  apply (undeclared_field_ignored (λ _, Exited 0 EmptyString EmptyString)
           git_push "upstream" (VStr "x") ∅).
  rewrite list_elem_of_In. vm_compute. intuition discriminate.
Defined.

Lemma falsy_cases v :
  truthy (Some v) = false → v = VNull ∨ v = VBool false ∨ v = VNum 0 ∨ v = VStr EmptyString.
Proof.
  destruct v as [|[]|n|s|]; simpl; try done; auto.
  - intros H. apply negb_false_iff, Z.eqb_eq in H. subst. auto.
  - intros H. apply negb_false_iff, String.eqb_eq in H. subst. auto.
Qed.

(** Split [k ∈ declared t], for a given [t], into its cases. *)
Ltac declared_cases H :=
  match type of H with
  | ?k ∈ declared ?t =>
      let l := eval vm_compute in (declared t) in
      change (k ∈ l) in H; rewrite ?elem_of_cons in H;
      repeat match type of H with
        | _ ∨ _ => destruct H as [H|H]
        end;
      try (by apply elem_of_nil in H); subst
  end.

(** X7.  Except for the fields of [read_as_given], a field holding a falsy
    value ([null], [false], [0] or the empty string) is treated exactly as a
    field that is not there. *)
Theorem falsy_is_absent (run : exec_call → Outcome)
    (t : tool) (k : string) (v : value) (args : Args) :
  truthy (Some v) = false →
  (t, k) ∉ read_as_given →
  call run (tool_name t) (Some (<[k := v]> args))
  = call run (tool_name t) (Some (delete k args)).
Proof.
  intros Hv Hk.
  destruct (decide (k ∈ declared t)) as [Hin|Hout].
  2: { destruct (undeclared_parts t k args (<[k := v]> args) Hout) as (? & ? & ?).
       { intros x Hx. by apply lookup_insert_ne. }
       destruct (undeclared_parts t k args (delete k args) Hout) as (? & ? & ?).
       { intros x Hx. by apply lookup_delete_ne. }
       apply call_ext; congruence. }
  unfold read_as_given in Hk. rewrite ?not_elem_of_cons in Hk. destruct_and?.
  assert (<[k := v]> args !! k = Some v) as Hins by apply lookup_insert_eq.
  assert (delete k args !! k = None) as Hdel by apply lookup_delete_eq.
  assert (∀ x, x ≠ k → <[k := v]> args !! x = delete k args !! x) as Hagree.
  { intros x Hx. by rewrite lookup_insert_ne, lookup_delete_ne. }
  remember (<[k := v]> args) as a1 eqn:E1. remember (delete k args) as a2 eqn:E2.
  clear E1 E2.
  destruct t; declared_cases Hin; try done.
  all: apply call_ext; unfold_commands; unfold exec_cwd.
  all: rewrite ?Hins, ?Hdel; rewrite ?Hagree by done.
  all: destruct (falsy_cases v Hv) as [->|[->|[->| ->]]]; clear.
  all: simpl; rewrite ?andb_false_r; reflexivity.
Qed.

Lemma falsy_is_absent_witness :
  call (λ _, Exited 0 EmptyString EmptyString) (tool_name git_log)
    (Some (<["limit" := VNum 0]> ∅))
  = call (λ _, Exited 0 EmptyString EmptyString) (tool_name git_log)
      (Some (delete "limit" ∅)).
Proof.
  apply (falsy_is_absent (λ _, Exited 0 EmptyString EmptyString) git_log "limit" (VNum 0) ∅).
  - reflexivity.
  - rewrite list_elem_of_In. vm_compute. intuition discriminate.
Defined.

(** ** Documented defaults *)

(** Split [(k, d) ∈ documented_defaults t], for a given [t], into its cases. *)
Ltac default_cases H :=
  match type of H with
  | ?x ∈ documented_defaults ?t =>
      let l := eval vm_compute in (documented_defaults t) in
      change (x ∈ l) in H; rewrite ?elem_of_cons in H;
      repeat match type of H with
        | _ ∨ _ => destruct H as [H|H]
        end;
      try (by apply elem_of_nil in H); simplify_eq
  end.

(** X8.  Apart from the six of [defaults_not_applied], every default the
    registry documents is what the handler does for a missing field: a call
    that sends the default is the same call as one that omits the field. *)
Theorem documented_default_applied (run : exec_call → Outcome)
    (t : tool) (k : string) (d : value) (args : Args) :
  (k, d) ∈ documented_defaults t →
  (t, k) ∉ defaults_not_applied →
  call run (tool_name t) (Some (<[k := d]> args))
  = call run (tool_name t) (Some (delete k args)).
Proof.
  intros Hd Hk. unfold defaults_not_applied in Hk.
  rewrite ?not_elem_of_cons in Hk. destruct_and?.
  destruct t; default_cases Hd; try done.
  all: clear; apply call_ext.
  all: unfold_commands; unfold exec_cwd.
  all: rewrite ?lookup_insert_eq, ?lookup_delete_eq.
  all: rewrite ?lookup_insert_ne, ?lookup_delete_ne by done.
  all: reflexivity.
Qed.

Lemma documented_default_applied_witness :
  call (λ _, Exited 0 EmptyString EmptyString) (tool_name git_pull)
    (Some (<["ff" := VBool true]> ∅))
  = call (λ _, Exited 0 EmptyString EmptyString) (tool_name git_pull)
      (Some (delete "ff" ∅)).
Proof.
  apply (documented_default_applied (λ _, Exited 0 EmptyString EmptyString)
           git_pull "ff" (VBool true) ∅).
  - rewrite list_elem_of_In. vm_compute. intuition.
  - rewrite list_elem_of_In. vm_compute. intuition discriminate.
Defined.

Lemma inserts_neq tok c0 c1 : tok ≠ EmptyString → inserts tok c0 c1 → c0 ≠ c1.
Proof.
  intros Htok Hins ->. apply inserts_length in Hins.
  destruct tok; [done|]. simpl in Hins. lia.
Qed.

(** X9.  For the six of [defaults_not_applied] the documented default is
    not what happens when the field is missing: sending the default always
    composes another command than omitting the field. *)
Theorem documented_default_not_applied (t : tool) (k : string) (d : value) (args : Args) :
  (k, d) ∈ documented_defaults t →
  (t, k) ∈ defaults_not_applied →
  command_of t (<[k := d]> args) ≠ command_of t (delete k args).
Proof.
  intros Hd Hk. unfold defaults_not_applied in Hk.
  rewrite ?elem_of_cons in Hk.
  repeat match type of Hk with _ ∨ _ => destruct Hk as [Hk|Hk] end;
    try (by apply elem_of_nil in Hk); injection Hk as -> ->.
  all: default_cases Hd; try done.
  all: unfold_commands.
  all: rewrite ?lookup_insert_eq, ?lookup_delete_eq.
  all: rewrite ?lookup_insert_ne, ?lookup_delete_ne by done.
  all: simpl truthy; simpl is_str.
  all: intros Heq; apply (inj inr) in Heq; revert Heq.
  - (* init: [--initial-branch="main"] is put in *)
    apply not_eq_sym, (inserts_neq (" --initial-branch=" +:+ quoted "main")); [done|].
    repeat case_match; flag_steps.
  - (* clone: [--recursive] is put in *)
    apply not_eq_sym, (inserts_neq " --recursive"); [done|].
    repeat case_match; flag_steps.
  - (* status: [--branch] is put in *)
    apply not_eq_sym, (inserts_neq " --branch"); [done|].
    repeat case_match; flag_steps.
  - (* log: [-10] is put in *)
    apply not_eq_sym, (inserts_neq (" -" +:+ "10")); [done|].
    repeat case_match; flag_steps.
  - (* stash: [push] against [list] *)
    intros Heq. apply (f_equal (String.get 6)) in Heq.
    repeat case_match; cbv [String.get String.append] in Heq; discriminate.
  - (* reset: [--mixed] against [--undefined] *)
    intros Heq. apply (f_equal (String.get 8)) in Heq.
    cbv [String.get String.append template to_string] in Heq. discriminate.
Qed.

Lemma documented_default_not_applied_witness :
  command_of git_stash (<["action" := VStr "save"]> ∅)
  ≠ command_of git_stash (delete "action" ∅).
Proof.
  apply (documented_default_not_applied git_stash "action" (VStr "save") ∅).
  - rewrite list_elem_of_In. vm_compute. intuition.
  - rewrite list_elem_of_In. vm_compute. intuition.
Defined.

(** ** Valued options *)

Lemma valued_command_composes o args :
  command_of (valued_tool o) args = inr (valued_command o args).
Proof. by destruct o. Qed.

(** X10.  For each option of [valued] whose test the handler reaches, a
    truthy value puts exactly the option's token, made from the value's
    text, into the command composed without the field; nothing else of the
    command changes. *)
Theorem valued_option_toggle (o : valued) (args : Args) (v : value) :
  valued_read o args = true →
  truthy (Some v) = true →
  ∃ c0 c1,
    command_of (valued_tool o) (delete (valued_field o) args) = inr c0
    ∧ command_of (valued_tool o) (<[valued_field o := v]> args) = inr c1
    ∧ inserts (valued_token o (to_string v)) c0 c1.
Proof.
  intros Hread Hv.
  eexists _, _. split; [|split]; [apply valued_command_composes..|].
  destruct o; cbn [valued_tool valued_field valued_token valued_read] in *.
  all: unfold valued_command; cbn [valued_tool command_of].
  all: unfold_commands.
  all: rewrite ?lookup_insert_eq, ?lookup_delete_eq.
  all: rewrite ?lookup_insert_ne, ?lookup_delete_ne by done.
  all: rewrite ?Hv, ?Hread; cbn [truthy template].
  all: repeat match goal with |- context [if ?b then _ else _] => destruct b eqn:? end.
  all: try done.
  all: flag_steps.
Qed.

Lemma valued_option_toggle_witness :
  ∃ c0 c1,
    command_of git_log (delete "limit" ∅) = inr c0
    ∧ command_of git_log (<["limit" := VNum 5]> ∅) = inr c1
    ∧ inserts (" -" +:+ to_string (VNum 5)) c0 c1.
Proof. apply (valued_option_toggle LogLimit ∅ (VNum 5)); reflexivity. Defined.

(** ** add *)

(** X11.  When [files] is a non-empty string instead of an array (and
    neither [all] nor [update] is set), composing the command throws: the
    call fails with the runtime's message wrapped as a git error and nothing
    is executed. *)
Theorem add_files_string_fails (run : exec_call → Outcome) (args : Args) (s : string) :
  truthy (args !! "all") = false →
  truthy (args !! "update") = false →
  args !! "files" = Some (VStr s) →
  s ≠ EmptyString →
  call run "git_add" (Some args)
  = (inl (McpError InternalError ("Git error: " +:+ "args.files.map is not a function")), []).
Proof.
  intros Hall Hupd Hfiles Hs.
  apply (call_compose_error run git_add args (TypeError "args.files.map is not a function")).
  simpl. unfold add_command. rewrite Hall, Hupd, Hfiles.
  destruct s; [done|]. reflexivity.
Qed.

Lemma add_files_string_fails_witness :
  call (λ _, Exited 0 EmptyString EmptyString) "git_add"
    (Some {[ "files" := VStr "a.txt" ]})
  = (inl (McpError InternalError ("Git error: " +:+ "args.files.map is not a function")), []).
Proof.
  apply (add_files_string_fails (λ _, Exited 0 EmptyString EmptyString)
           {[ "files" := VStr "a.txt" ]} "a.txt"); [reflexivity..|discriminate].
Defined.



(** ** Plain values and the shell *)

Lemma end_command_app words w : end_command (words ++ [w]) [] = [(words ++ [w])%list].
Proof. unfold end_command. by destruct words. Qed.

(** Quoted plain words, joined by blanks, are read back as those words. *)
Lemma sh_scan_quoted_words (ws : list string) :
  Forall (λ w, is_plain w = true) ws →
  ws ≠ [] →
  ∀ words,
    sh_scan Bare None words [] (String.concat " " (List.map quoted ws))
    = Some [(words ++ ws)%list].
Proof.
  induction ws as [|w ws IH]; intros Hplain Hne words; [done|].
  apply Forall_cons in Hplain as [Hw Hplain].
  destruct ws as [|w' ws].
  - simpl. unfold quoted.
    change (sh_scan InDouble (Some EmptyString) words [] (w +:+ dq +:+ EmptyString)
            = Some [(words ++ [w])%list]).
    rewrite (sh_scan_quoted_plain w Hw). simpl. by rewrite end_command_app.
  - change (String.concat " " (List.map quoted (w :: w' :: ws)))
      with (quoted w +:+ " " +:+ String.concat " " (List.map quoted (w' :: ws))).
    unfold quoted at 1. rewrite !append_assoc.
    change (sh_scan InDouble (Some EmptyString) words []
              (w +:+ dq +:+ " " +:+ String.concat " " (List.map quoted (w' :: ws)))
            = Some [(words ++ w :: w' :: ws)%list]).
    rewrite (sh_scan_quoted_plain w Hw).
    change (sh_scan Bare None (words ++ [w]) []
              (String.concat " " (List.map quoted (w' :: ws)))
            = Some [(words ++ w :: w' :: ws)%list]).
    rewrite (IH Hplain ltac:(done)). by rewrite <- app_assoc.
Qed.

(** X13.  File names without double quote, backslash, dollar or backquote
    reach git as they are, one word each, blanks and semicolons included:
    the shell reads the line composed for them as [git add] followed by
    exactly the names. *)
Theorem add_plain_files_are_words (args : Args) (files : list string) :
  truthy (args !! "all") = false →
  truthy (args !! "update") = false →
  args !! "files" = Some (VArr (List.map VStr files)) →
  files ≠ [] →
  Forall (λ f, is_plain f = true) files →
  ∃ c, add_command args = inr c
       ∧ sh_words ("git " +:+ c) = Some [("git" :: "add" :: files)].
Proof.
  intros Hall Hupd Hfiles Hne Hplain.
  unfold add_command, has_files, files_joined. rewrite Hall, Hupd, Hfiles. simpl.
  destruct files as [|f files]; [done|]. simpl bool_decide. cbn iota.
  eexists; split; [reflexivity|].
  rewrite List.map_map.
  change (sh_scan Bare None ["git"; "add"] []
            (String.concat " " (List.map quoted (f :: files)))
          = Some ["git" :: "add" :: f :: files]).
  by rewrite (sh_scan_quoted_words (f :: files) Hplain Hne).
Qed.

Lemma add_plain_files_are_words_witness :
  ∃ c, add_command {[ "files" := VArr (List.map VStr ["my file.txt"; "b;c"]) ]} = inr c
       ∧ sh_words ("git " +:+ c) = Some [("git" :: "add" :: ["my file.txt"; "b;c"])].
Proof.
  apply (add_plain_files_are_words
           {[ "files" := VArr (List.map VStr ["my file.txt"; "b;c"]) ]}
           ["my file.txt"; "b;c"]); [reflexivity..|discriminate|].
  repeat constructor.
Defined.

(** X14.  A commit message without double quote, backslash, dollar or
    backquote reaches git as one word, whatever blanks and semicolons it
    holds, next to the flags asked for (no author given). *)
Theorem plain_commit_words (args : Args) (m : string) :
  args !! "message" = Some (VStr m) →
  is_plain m = true →
  truthy (args !! "author") = false →
  sh_words ("git " +:+ commit_command args)
  = Some [(["git"; "commit"; "-m"; m]
           ++ (if truthy (args !! "all") then ["--all"] else [])
           ++ (if truthy (args !! "amend") then ["--amend"] else []))%list].
Proof.
  intros Hm Hplain Hauthor. unfold commit_command. rewrite Hm, Hauthor. simpl template.
  unfold quoted, sh_words.
  destruct (truthy (args !! "all")), (truthy (args !! "amend")); rewrite ?append_assoc.
  all: match goal with
       | |- sh_scan _ _ _ _ (_ +:+ _ +:+ _ +:+ _ +:+ _ +:+ _ +:+ ?rest) = ?r =>
           change (sh_scan InDouble (Some EmptyString) ["git"; "commit"; "-m"] []
                     (m +:+ dq +:+ rest) = r)
       | |- sh_scan _ _ _ _ (_ +:+ _ +:+ _ +:+ _ +:+ _ +:+ _) = ?r =>
           change (sh_scan InDouble (Some EmptyString) ["git"; "commit"; "-m"] []
                     (m +:+ dq +:+ EmptyString) = r)
       end.
  all: by rewrite (sh_scan_quoted_plain m Hplain).
Qed.

Lemma plain_commit_words_witness :
  sh_words ("git " +:+ commit_command
              (<["all" := VBool true]> {[ "message" := VStr "fix: a; b" ]}))
  = Some [(["git"; "commit"; "-m"; "fix: a; b"]
           ++ (if truthy ((<["all" := VBool true]> {[ "message" := VStr "fix: a; b" ]} : Args)
                            !! "all") then ["--all"] else [])
           ++ (if truthy ((<["all" := VBool true]> {[ "message" := VStr "fix: a; b" ]} : Args)
                            !! "amend") then ["--amend"] else []))%list].
Proof.
  apply (plain_commit_words (<["all" := VBool true]> {[ "message" := VStr "fix: a; b" ]})
           "fix: a; b"); reflexivity.
Defined.

(** ** Actions *)

Lemma is_str_not_in (args : Args) l a :
  ¬ action_in args l → a ∈ l → is_str (args !! "action") a = false.
Proof.
  intros Hno Ha. unfold is_str.
  destruct (args !! "action") as [[|b|n|s|items]|] eqn:Hact; try done.
  destruct (String.eqb s a) eqn:Heq; [|done].
  apply String.eqb_eq in Heq as ->. exfalso. apply Hno. by exists a.
Qed.

Ltac not_actions H :=
  repeat match goal with
    | |- context [is_str (?args !! "action") ?a] =>
        rewrite (is_str_not_in args _ a H) by (rewrite list_elem_of_In; simpl; tauto)
    end.

(** X15.  A missing or unrecognised [action] makes stash, branch, remote and
    tag list: stash composes [stash list] (not the [save] its schema
    documents), tag composes the bare [tag], and branch and remote compose
    their listing with only the listing flags, whatever names, urls, messages
    or indexes the request carries. *)
Theorem unrecognised_action_lists (args : Args) :
  (¬ action_in args ["save"; "pop"; "apply"; "drop"; "clear"] →
     stash_command args = "stash list")
  ∧ (¬ action_in args ["create"; "delete"] → tag_command args = "tag")
  ∧ (¬ action_in args ["create"; "delete"; "rename"] →
       branch_command args
       = "branch" +:+ opt (truthy (args !! "all")) " --all"
                  +:+ opt (truthy (args !! "remote")) " --remote")
  ∧ (¬ action_in args ["add"; "remove"; "set-url"; "show"] →
       remote_command args = "remote" +:+ opt (truthy (args !! "verbose")) " -v").
Proof.
  split; [|split; [|split]]; intros Hno.
  - unfold stash_command. by not_actions Hno.
  - unfold tag_command. by not_actions Hno.
  - unfold branch_command. not_actions Hno.
    by destruct (truthy (args !! "all")), (truthy (args !! "remote")).
  - unfold remote_command. not_actions Hno.
    by destruct (truthy (args !! "verbose")).
Qed.

(** X16.  In [tag create], [annotated] counts only together with a message:
    without one the tag is the plain [tag "<name>"] whatever [annotated]
    says, and with both it is [tag -a "<name>" -m "<message>"]; [-f] follows
    either when [force] is set. *)
Theorem tag_annotated_needs_message (args : Args) :
  is_str (args !! "action") "create" = true →
  (truthy (args !! "message") = false →
     (∀ v, tag_command (<["annotated" := v]> args) = tag_command args)
     ∧ tag_command args
       = "tag " +:+ quoted (template (args !! "name"))
                +:+ opt (truthy (args !! "force")) " -f")
  ∧ (truthy (args !! "message") = true →
     truthy (args !! "annotated") = true →
     tag_command args
     = "tag -a " +:+ quoted (template (args !! "name"))
                 +:+ " -m " +:+ quoted (template (args !! "message"))
                 +:+ opt (truthy (args !! "force")) " -f").
Proof.
  intros Hact. split.
  - intros Hmsg. split.
    + intros v. unfold tag_command.
      rewrite lookup_insert_eq, !lookup_insert_ne by done.
      by rewrite Hact, Hmsg, !andb_false_r.
    + unfold tag_command. rewrite Hact, Hmsg, andb_false_r.
      destruct (truthy (args !! "force")); simpl; by rewrite ?append_assoc, ?append_nil_r.
  - intros Hmsg Hann. unfold tag_command. rewrite Hact, Hmsg, Hann. simpl.
    destruct (truthy (args !! "force")); simpl; by rewrite ?append_assoc, ?append_nil_r.
Qed.

Lemma tag_annotated_needs_message_witness :
  let args : Args := <["name" := VStr "v1"]> {[ "action" := VStr "create" ]} in
  (truthy (args !! "message") = false →
     (∀ v, tag_command (<["annotated" := v]> args) = tag_command args)
     ∧ tag_command args
       = "tag " +:+ quoted (template (args !! "name"))
                +:+ opt (truthy (args !! "force")) " -f")
  ∧ (truthy (args !! "message") = true →
     truthy (args !! "annotated") = true →
     tag_command args
     = "tag -a " +:+ quoted (template (args !! "name"))
                 +:+ " -m " +:+ quoted (template (args !! "message"))
                 +:+ opt (truthy (args !! "force")) " -f").
Proof.
  apply (tag_annotated_needs_message (<["name" := VStr "v1"]> {[ "action" := VStr "create" ]})).
  reflexivity.
Defined.



(** ** Errors *)

(** X18.  Whatever goes wrong, the caller gets an [McpError]: with
    [MethodNotFound] exactly for a name that is not advertised, and otherwise
    with [InternalError] and a message that begins with [Git error: ].  No
    runtime or [exec] error passes through unwrapped. *)
Theorem errors_are_mcp_errors (run : exec_call → Outcome)
    (name : string) (args : option Args) (e : exn) :
  (call run name args).1 = inl e →
  ((name ∉ advertised) ∧ e = McpError MethodNotFound ("Unknown tool: " +:+ name))
  ∨ ((name ∈ advertised) ∧ ∃ m, e = McpError InternalError ("Git error: " +:+ m)).
Proof.
  intros He.
  destruct (call_cases run name args)
    as [Hn|[(t & -> & ->)|[(t & a & e' & -> & -> & Hc)|(t & a & c & -> & -> & Hc)]]].
  - left. destruct (call_unknown run name Hn) as [_ H]. rewrite H in He.
    simpl in He. split; [|by simplify_eq]. rewrite advertised_dispatched, Hn. by intros [? ?].
  - right. split; [apply advertised_dispatched; rewrite tool_of_name_name; by eexists|].
    rewrite call_no_arguments in He. simpl in He. simplify_eq. by eexists.
  - right. split; [apply advertised_dispatched; rewrite tool_of_name_name; by eexists|].
    rewrite (call_compose_error run t a e' Hc) in He. simpl in He. simplify_eq. by eexists.
  - right. split; [apply advertised_dispatched; rewrite tool_of_name_name; by eexists|].
    rewrite (call_composed run t a c Hc) in He. simpl in He.
    destruct (run _) as [code out err|m]; [destruct (code =? 0)%Z|];
      simplify_eq; by eexists.
Qed.

Lemma errors_are_mcp_errors_witness :
  (("git_log" ∉ advertised)
   ∧ git_error ("Command failed: " +:+ "git log" +:+ nl +:+ "fatal: bad")
     = McpError MethodNotFound ("Unknown tool: " +:+ "git_log"))
  ∨ (("git_log" ∈ advertised)
     ∧ ∃ m, git_error ("Command failed: " +:+ "git log" +:+ nl +:+ "fatal: bad")
            = McpError InternalError ("Git error: " +:+ m)).
Proof.
  apply (errors_are_mcp_errors (λ _, Exited 1 EmptyString "fatal: bad") "git_log" (Some ∅)).
  reflexivity.
Defined.
